(** * Tasks API: a shallow embedding of [backend_api/src/api]

    The development follows the four source files:
    - [schemas.py]  : request validation (the pydantic models),
    - [models.py]   : the [Task] row and [Task.touch],
    - [database.py] : the store behind the session,
    - [main.py]     : the seven request handlers.

    A Python [str] is a list of characters; every character is a code point
    below 256.  Instants are integers (microseconds since the epoch).  The
    reading of the clock is an explicit argument of every handler that calls
    [datetime.now]. *)

From Stdlib Require Import ZArith Ascii String.
From stdpp Require Import base option list gmap sorting.

Local Open Scope Z_scope.

(** ** Python strings *)

Definition str := list ascii.

(** A literal, for examples. *)
Definition lit (x : string) : str := list_ascii_of_string x.

(** [str.isspace] on one character (code points below 256): TAB..CR,
    FS..US, SPACE, NEL and NBSP. *)
Definition isspace (c : ascii) : bool :=
  let n := N_of_ascii c in
  ((9 <=? n) && (n <=? 13) || (28 <=? n) && (n <=? 32)
   || (n =? 133) || (n =? 160))%N.

Fixpoint lstrip (x : str) : str :=
  match x with
  | [] => []
  | c :: x' => if isspace c then lstrip x' else x
  end.

Fixpoint rstrip (x : str) : str :=
  match x with
  | [] => []
  | c :: x' =>
      match rstrip x' with
      | [] => if isspace c then [] else [c]
      | r => c :: r
      end
  end.

(** [str.strip()] without argument. *)
Definition strip (x : str) : str := rstrip (lstrip x).

(** [len(x)] as a Python integer. *)
Definition len (x : str) : Z := Z.of_nat (length x).

(** ** The storage engine's pattern match

    [Task.title.ilike(p)] is rendered as [title ILIKE p] with no ESCAPE clause.
    In a pattern [%] stands for any run of characters, [_] for any one
    character, and the backslash makes the character after it literal.  A
    pattern that ends in a lone backslash is an error of the engine. *)

Definition pct : ascii := "%".
Definition und : ascii := "_".
Definition esc : ascii := "\".

Inductive like_result := LIKE_TRUE | LIKE_FALSE | LIKE_ERROR.

Definition like_or (a b : like_result) : like_result :=
  match a with
  | LIKE_FALSE => b
  | _ => a
  end.

Fixpoint like (p t : str) {struct p} : like_result :=
  match p with
  | [] => match t with [] => LIKE_TRUE | _ => LIKE_FALSE end
  | c :: p' =>
      if Ascii.eqb c pct then
        (fix any (u : str) : like_result :=
           like_or (like p' u)
                   match u with
                   | [] => LIKE_FALSE
                   | _ :: u' => any u'
                   end) t
      else if Ascii.eqb c und then
        match t with
        | [] => LIKE_FALSE
        | _ :: t' => like p' t'
        end
      else if Ascii.eqb c esc then
        match p' with
        | [] => LIKE_ERROR
        | d :: p'' =>
            match t with
            | [] => LIKE_FALSE
            | e :: t' => if Ascii.eqb d e then like p'' t' else LIKE_FALSE
            end
        end
      else
        match t with
        | [] => LIKE_FALSE
        | e :: t' => if Ascii.eqb c e then like p' t' else LIKE_FALSE
        end
  end.

(** Case folding of the engine: the letters A..Z. *)
Definition lower_char (c : ascii) : ascii :=
  let n := N_of_ascii c in
  if ((65 <=? n) && (n <=? 90))%N then ascii_of_N (n + 32) else c.

Definition lower (x : str) : str := map lower_char x.

Definition ilike (p t : str) : like_result := like (lower p) (lower t).

(** ** schemas.py *)

Module schemas.

Inductive TaskStatus := pending | completed.

(** [TaskStatus.value] *)
Definition value (st : TaskStatus) : str :=
  match st with
  | pending => lit "pending"
  | completed => lit "completed"
  end.

(** [TaskStatus(v)] on a request value; [None] is a validation error. *)
Definition TaskStatus_of (v : str) : option TaskStatus :=
  if decide (v = lit "pending") then Some pending
  else if decide (v = lit "completed") then Some completed
  else None.

(** One member of a JSON request body: left out, [null], or a value. *)
Inductive field (A : Type) :=
| Omitted
| Null
| Value (a : A).
Arguments Omitted {A}.
Arguments Null {A}.
Arguments Value {A} a.

(** The body of POST, PUT and PATCH as it arrives. *)
Module Body.
Record t := mk {
  title : field str;
  description : field str;
  status : field str
}.
End Body.

(** [Field(..., min_length=1, max_length=255)]: checked on the value as
    received, before the field validator runs. *)
Definition length_ok (v : str) : bool := (1 <=? len v) && (len v <=? 255).

(** [Optional[str] = None]: left out and [null] both read as [None]. *)
Definition parse_description (f : field str) : option str :=
  match f with
  | Value d => Some d
  | _ => None
  end.

Module TaskCreate.
Record t := mk {
  title : str;
  description : option str;
  status : TaskStatus
}.

(** [TaskBase.title_not_empty] *)
Definition title_not_empty (v : str) : option str :=
  if bool_decide (strip v = []) then None else Some (strip v).

(** The three members of a body as [TaskCreate] reads them; [None] is a
    validation error.  [title] is required and must be a string. *)
Definition parse_title (f : field str) : option str :=
  match f with
  | Value v => if length_ok v then title_not_empty v else None
  | _ => None
  end.

(** [status] defaults to [pending]; [null] is not a status. *)
Definition parse_status (f : field str) : option TaskStatus :=
  match f with
  | Omitted => Some pending
  | Null => None
  | Value v => TaskStatus_of v
  end.

Definition validate (b : Body.t) : option t :=
  title' ← parse_title (Body.title b);
  status' ← parse_status (Body.status b);
  Some (mk title' (parse_description (Body.description b)) status').
End TaskCreate.

Module TaskUpdate.
Record t := mk {
  title : option str;
  description : option str;
  status : option TaskStatus
}.

(** [TaskUpdate.title_not_empty_if_present] *)
Definition title_not_empty_if_present (v : option str) : option (option str) :=
  match v with
  | Some v' => if bool_decide (strip v' = []) then None else Some (Some (strip v'))
  | None => Some None
  end.

(** The members of a body as [TaskUpdate] reads them: every member
    defaults to [None], and [null] is accepted for every member. *)
Definition parse_title (f : field str) : option (option str) :=
  match f with
  | Omitted => Some None
  | Null => title_not_empty_if_present None
  | Value v => if length_ok v then title_not_empty_if_present (Some v) else None
  end.

Definition parse_status (f : field str) : option (option TaskStatus) :=
  match f with
  | Value v => Some <$> TaskStatus_of v
  | _ => Some None
  end.

Definition validate (b : Body.t) : option t :=
  title' ← parse_title (Body.title b);
  status' ← parse_status (Body.status b);
  Some (mk title' (parse_description (Body.description b)) status').
End TaskUpdate.

End schemas.

(** ** models.py *)

Module models.

Inductive TaskStatus := PENDING | COMPLETED.

Definition value (st : TaskStatus) : str :=
  match st with
  | PENDING => lit "pending"
  | COMPLETED => lit "completed"
  end.

(** [TaskStatus(v)]; [None] is Python's ValueError. *)
Definition TaskStatus_of (v : str) : option TaskStatus :=
  if decide (v = lit "pending") then Some PENDING
  else if decide (v = lit "completed") then Some COMPLETED
  else None.

Global Instance TaskStatus_eq_dec : EqDecision TaskStatus.
Proof. solve_decision. Defined.

Record Task := mkTask {
  id : Z;
  title : str;
  description : option str;
  status : TaskStatus;
  created_at : Z;
  updated_at : Z
}.

Definition set_title (v : str) (task : Task) : Task :=
  mkTask (id task) v (description task) (status task)
         (created_at task) (updated_at task).

Definition set_description (v : option str) (task : Task) : Task :=
  mkTask (id task) (title task) v (status task)
         (created_at task) (updated_at task).

Definition set_status (v : TaskStatus) (task : Task) : Task :=
  mkTask (id task) (title task) (description task) v
         (created_at task) (updated_at task).

(** [Task.touch], with the reading of the clock as [now]. *)
Definition touch (now : Z) (task : Task) : Task :=
  mkTask (id task) (title task) (description task) (status task)
         (created_at task) now.

End models.

(** ** database.py

    The store behind a session: the [tasks] table as a map from the
    primary key [id] to the other columns, and the sequence that feeds the
    key.  A statement that the handlers commit is applied at once; nothing
    is written before the commit. *)

Module database.

(** A row of [tasks] without its primary key: the columns that a [Task]
    object holds before the INSERT has given it an [id]. *)
Record Row := mkRow {
  title : str;
  description : option str;
  status : models.TaskStatus;
  created_at : Z;
  updated_at : Z
}.

(** The object loaded from the row stored under the key [k]. *)
Definition load (k : Z) (r : Row) : models.Task :=
  models.mkTask k (title r) (description r) (status r) (created_at r) (updated_at r).

(** The columns written for an object. *)
Definition columns (task : models.Task) : Row :=
  mkRow (models.title task) (models.description task) (models.status task)
        (models.created_at task) (models.updated_at task).

Record Session := mkSession {
  tasks : gmap Z Row;
  tasks_id_seq : Z
}.

(** The store after [create_all] on an empty database. *)
Definition empty : Session := mkSession ∅ 1.

(** [db.get(Task, task_id)] *)
Definition get (db : Session) (task_id : Z) : option models.Task :=
  load task_id <$> tasks db !! task_id.

(** [db.add(task); db.commit(); db.refresh(task)] for a new object: the
    key is drawn from the sequence. *)
Definition insert (r : Row) (db : Session) : models.Task * Session :=
  (load (tasks_id_seq db) r,
   mkSession (<[tasks_id_seq db := r]> (tasks db)) (tasks_id_seq db + 1)).

(** [db.add(task); db.commit(); db.refresh(task)] for a loaded object. *)
Definition update (task : models.Task) (db : Session) : models.Task * Session :=
  (task, mkSession (<[models.id task := columns task]> (tasks db)) (tasks_id_seq db)).

(** [db.delete(task); db.commit()] *)
Definition delete (task : models.Task) (db : Session) : Session :=
  mkSession (base.delete (models.id task) (tasks db)) (tasks_id_seq db).

(** The rows of the table, as objects. *)
Definition rows (db : Session) : list models.Task :=
  (fun kr => load kr.1 kr.2) <$> map_to_list (tasks db).

(** [WHERE title ILIKE p] over the rows; [None] when the engine raises. *)
Fixpoint where_ilike (p : str) (l : list models.Task) : option (list models.Task) :=
  match l with
  | [] => Some []
  | r :: l' =>
      match ilike p (models.title r) with
      | LIKE_ERROR => None
      | LIKE_TRUE => cons r <$> where_ilike p l'
      | LIKE_FALSE => where_ilike p l'
      end
  end.

(** The WHERE clause of a statement: none, or one ILIKE pattern. *)
Definition apply_where (w : option str) (l : list models.Task) : option (list models.Task) :=
  match w with
  | None => Some l
  | Some p => where_ilike p l
  end.

(** [created_at DESC] as an order on rows. *)
Definition created_at_desc (a b : models.Task) : Prop :=
  models.created_at b <= models.created_at a.

Global Instance created_at_desc_dec : RelDecision created_at_desc.
Proof. intros a b. unfold created_at_desc. apply _. Defined.

(** [ORDER BY created_at DESC] *)
Definition order_by_created_at_desc (l : list models.Task) : list models.Task :=
  merge_sort created_at_desc l.

(** [db.execute(select(func.count()).select_from(Task).where(w)).scalar_one()] *)
Definition execute_count (w : option str) (db : Session) : option Z :=
  l ← apply_where w (rows db); Some (Z.of_nat (length l)).

(** [db.execute(select(Task).where(w).order_by(Task.created_at.desc())
      .offset(offset).limit(limit)).scalars().all()] *)
Definition execute_select (w : option str) (offset limit : Z) (db : Session)
  : option (list models.Task) :=
  l ← apply_where w (rows db);
  Some (take (Z.to_nat limit) (drop (Z.to_nat offset) (order_by_created_at_desc l))).

End database.

(** ** main.py *)

Module main.

Inductive HTTPError :=
| HTTP_404_NOT_FOUND
| HTTP_422_UNPROCESSABLE_ENTITY
| HTTP_500_INTERNAL_SERVER_ERROR.

(** What a handler hands back: a value to serialise, or a raised error. *)
Inductive Response (A : Type) :=
| Return (a : A)
| Raise (e : HTTPError).
Arguments Return {A} a.
Arguments Raise {A} e.

(** [schemas.PaginatedTasks]; a [TaskOut] copies the six attributes of a
    row, so the rows themselves stand for the items. *)
Record PaginatedTasks := mkPaginatedTasks {
  total : Z;
  page : Z;
  page_size : Z;
  items : list models.Task
}.

(** [f"%{q}%"] *)
Definition ilike_expr (q : str) : str := pct :: q ++ [pct].

(** The WHERE clause that [list_tasks] builds from [q]: [if q:] is false
    for [None] and for the empty string. *)
Definition where_of (q : option str) : option str :=
  match q with
  | None => None
  | Some q' => if bool_decide (q' = []) then None else Some (ilike_expr q')
  end.

(** The filter of [list_tasks] on one row: the WHERE clause holds. *)
Definition matches (q : option str) (task : models.Task) : bool :=
  match where_of q with
  | None => true
  | Some p =>
      match ilike p (models.title task) with
      | LIKE_TRUE => true
      | _ => false
      end
  end.

(** [Query(1, ge=1)] and [Query(10, ge=1, le=100)] *)
Definition query_ok (page page_size : Z) : bool :=
  (1 <=? page) && (1 <=? page_size) && (page_size <=? 100).

Definition list_tasks (page page_size : Z) (q : option str) (db : database.Session)
  : Response PaginatedTasks :=
  if negb (query_ok page page_size) then Raise HTTP_422_UNPROCESSABLE_ENTITY
  else
    let w := where_of q in
    match database.execute_count w db with
    | None => Raise HTTP_500_INTERNAL_SERVER_ERROR
    | Some total =>
        let offset := (page - 1) * page_size in
        match database.execute_select w offset page_size db with
        | None => Raise HTTP_500_INTERNAL_SERVER_ERROR
        | Some items => Return (mkPaginatedTasks total page page_size items)
        end
    end.

(** [TaskStatus(payload.status.value)]: the row's enumeration looked up by
    the value of the request's enumeration. *)
Definition to_model_status (st : schemas.TaskStatus) : option models.TaskStatus :=
  models.TaskStatus_of (schemas.value st).

Definition create_task (payload : schemas.TaskCreate.t) (now : Z) (db : database.Session)
  : Response models.Task * database.Session :=
  match to_model_status (schemas.TaskCreate.status payload) with
  | None => (Raise HTTP_500_INTERNAL_SERVER_ERROR, db)
  | Some st =>
      let task := database.mkRow (strip (schemas.TaskCreate.title payload))
                                 (schemas.TaskCreate.description payload) st
                                 now now in
      let (task, db') := database.insert task db in
      (Return task, db')
  end.

Definition get_task (task_id : Z) (db : database.Session) : Response models.Task :=
  match database.get db task_id with
  | None => Raise HTTP_404_NOT_FOUND
  | Some task => Return task
  end.

Definition update_task (task_id : Z) (payload : schemas.TaskCreate.t) (now : Z)
  (db : database.Session) : Response models.Task * database.Session :=
  match database.get db task_id with
  | None => (Raise HTTP_404_NOT_FOUND, db)
  | Some task =>
      let task := models.set_title (strip (schemas.TaskCreate.title payload)) task in
      let task := models.set_description (schemas.TaskCreate.description payload) task in
      match to_model_status (schemas.TaskCreate.status payload) with
      | None => (Raise HTTP_500_INTERNAL_SERVER_ERROR, db)
      | Some st =>
          let task := models.set_status st task in
          let task := models.touch now task in
          let (task, db') := database.update task db in
          (Return task, db')
      end
  end.

Definition delete_task (task_id : Z) (db : database.Session)
  : Response unit * database.Session :=
  match database.get db task_id with
  | None => (Raise HTTP_404_NOT_FOUND, db)
  | Some task => (Return tt, database.delete task db)
  end.

Definition patch_task (task_id : Z) (payload : schemas.TaskUpdate.t) (now : Z)
  (db : database.Session) : Response models.Task * database.Session :=
  match database.get db task_id with
  | None => (Raise HTTP_404_NOT_FOUND, db)
  | Some task =>
      let task := match schemas.TaskUpdate.title payload with
                  | Some v => models.set_title (strip v) task
                  | None => task
                  end in
      let task := match schemas.TaskUpdate.description payload with
                  | Some v => models.set_description (Some v) task
                  | None => task
                  end in
      match match schemas.TaskUpdate.status payload with
            | Some v => (fun st => models.set_status st task) <$> to_model_status v
            | None => Some task
            end with
      | None => (Raise HTTP_500_INTERNAL_SERVER_ERROR, db)
      | Some task =>
          let task := models.touch now task in
          let (task, db') := database.update task db in
          (Return task, db')
      end
  end.

Definition toggle_task_status (task_id : Z) (now : Z) (db : database.Session)
  : Response models.Task * database.Session :=
  match database.get db task_id with
  | None => (Raise HTTP_404_NOT_FOUND, db)
  | Some task =>
      let task := models.set_status
                    (if decide (models.status task = models.PENDING)
                     then models.COMPLETED else models.PENDING) task in
      let task := models.touch now task in
      let (task, db') := database.update task db in
      (Return task, db')
  end.

(** *** The routes: the body is parsed into the handler's payload type
    first, and a body that does not parse is answered with 422 without the
    handler being entered. *)

Definition POST_tasks (body : schemas.Body.t) (now : Z) (db : database.Session)
  : Response models.Task * database.Session :=
  match schemas.TaskCreate.validate body with
  | None => (Raise HTTP_422_UNPROCESSABLE_ENTITY, db)
  | Some payload => create_task payload now db
  end.

Definition PUT_task (task_id : Z) (body : schemas.Body.t) (now : Z) (db : database.Session)
  : Response models.Task * database.Session :=
  match schemas.TaskCreate.validate body with
  | None => (Raise HTTP_422_UNPROCESSABLE_ENTITY, db)
  | Some payload => update_task task_id payload now db
  end.

Definition PATCH_task (task_id : Z) (body : schemas.Body.t) (now : Z) (db : database.Session)
  : Response models.Task * database.Session :=
  match schemas.TaskUpdate.validate body with
  | None => (Raise HTTP_422_UNPROCESSABLE_ENTITY, db)
  | Some payload => patch_task task_id payload now db
  end.

(** *** Sequences of requests *)

Inductive Request :=
| ListTasks (page page_size : Z) (q : option str)
| CreateTask (body : schemas.Body.t)
| GetTask (task_id : Z)
| ReplaceTask (task_id : Z) (body : schemas.Body.t)
| DeleteTask (task_id : Z)
| PatchTask (task_id : Z) (body : schemas.Body.t)
| ToggleTask (task_id : Z).

(** The store after one request served at clock reading [now]. *)
Definition serve (r : Request) (now : Z) (db : database.Session) : database.Session :=
  match r with
  | ListTasks _ _ _ => db
  | CreateTask body => (POST_tasks body now db).2
  | GetTask _ => db
  | ReplaceTask task_id body => (PUT_task task_id body now db).2
  | DeleteTask task_id => (delete_task task_id db).2
  | PatchTask task_id body => (PATCH_task task_id body now db).2
  | ToggleTask task_id => (toggle_task_status task_id now db).2
  end.

(** Requests served one after the other, each with its clock reading. *)
Fixpoint run (trace : list (Z * Request)) (db : database.Session) : database.Session :=
  match trace with
  | [] => db
  | (now, r) :: trace' => run trace' (serve r now db)
  end.


End main.

(** ** The words of the specification, for comparison with the code *)

Module spec.

(** [t] starts with [q]. *)
Fixpoint startswith (q t : str) : bool :=
  match q, t with
  | [], _ => true
  | _ :: _, [] => false
  | c :: q', e :: t' => Ascii.eqb c e && startswith q' t'
  end.

(** [q] occurs in [t] as a substring. *)
Fixpoint contains (q t : str) : bool :=
  startswith q t ||
  match t with
  | [] => false
  | _ :: t' => contains q t'
  end.



(** Wildcard matching with no escape character: [%] stands for any run of
    characters, [_] for any one character, every other character for
    itself. *)
Inductive wild : str -> str -> Prop :=
| wild_nil : wild [] []
| wild_pct p u t : wild p t -> wild (pct :: p) (u ++ t)
| wild_und p c t : wild p t -> wild (und :: p) (c :: t)
| wild_chr c p t : c <> pct -> c <> und -> wild p t -> wild (c :: p) (c :: t).




End spec.

(** ** Concrete requests and stores, used to run the handlers *)

Module examples.

Definition body (title : string) : schemas.Body.t :=
  schemas.Body.mk (schemas.Value (lit title)) schemas.Omitted schemas.Omitted.

(** The scenario of the specification: "Buy milk" is created at instant 10,
    a second task with a description at instant 20. *)
Definition body_milk : schemas.Body.t := body "  Buy milk ".

Definition body_eggs : schemas.Body.t :=
  schemas.Body.mk (schemas.Value (lit "Eggs")) (schemas.Value (lit "a dozen"))
                  (schemas.Value (lit "completed")).

Definition db2 : database.Session :=
  main.run [(10, main.CreateTask body_milk); (20, main.CreateTask body_eggs)]
           database.empty.

Definition task_milk : models.Task :=
  models.mkTask 1 (lit "Buy milk") None models.PENDING 10 10.

Definition task_eggs : models.Task :=
  models.mkTask 2 (lit "Eggs") (Some (lit "a dozen")) models.COMPLETED 20 20.


(** A body that sets nothing but [description], to [null]. *)
Definition body_null_description : schemas.Body.t :=
  schemas.Body.mk schemas.Omitted schemas.Null schemas.Omitted.



(** A title of 256 characters: [a] and 255 spaces. *)
Definition long_title : str := "a"%char :: repeat " "%char 255.

Definition body_long : schemas.Body.t :=
  schemas.Body.mk (schemas.Value long_title) schemas.Omitted schemas.Omitted.

End examples.

(** ** schemas.py: the response model *)

(** [schemas.TaskOut], built from a row's attributes ([from_attributes]):
    the five plain attributes are copied, and [status] is validated into
    the enumeration of the schemas by its value. *)
Module TaskOut.

Record t := mk {
  id : Z;
  title : str;
  description : option str;
  status : schemas.TaskStatus;
  created_at : Z;
  updated_at : Z
}.


End TaskOut.

(** ** Conditions on stores and requests that the handlers keep *)

Module invariants.

(** Every key of the table has been drawn from the sequence: it lies
    between the first value 1 and the next value. *)
Definition fresh (db : database.Session) : Prop :=
  1 <= database.tasks_id_seq db /\
  forall k task, database.get db k = Some task -> 1 <= k < database.tasks_id_seq db.

(** A title as the validators let it through: not empty, no white space
    at either end, at most 255 characters. *)
Definition title_ok (x : str) : Prop :=
  x <> [] /\ strip x = x /\ len x <= 255.

Definition titles_ok (db : database.Session) : Prop :=
  forall k task, database.get db k = Some task -> title_ok (models.title task).

(** The other status. *)
Definition flip (st : models.TaskStatus) : models.TaskStatus :=
  match st with
  | models.PENDING => models.COMPLETED
  | models.COMPLETED => models.PENDING
  end.

(** The PATCH body that sets [status] alone. *)
Definition status_body (st : models.TaskStatus) : schemas.Body.t :=
  schemas.Body.mk schemas.Omitted schemas.Omitted (schemas.Value (models.value st)).

(** A body with nothing to apply: every member left out or [null]. *)
Definition nothing_supplied (body : schemas.Body.t) : Prop :=
  (schemas.Body.title body = schemas.Omitted \/ schemas.Body.title body = schemas.Null) /\
  (schemas.Body.description body = schemas.Omitted \/
   schemas.Body.description body = schemas.Null) /\
  (schemas.Body.status body = schemas.Omitted \/ schemas.Body.status body = schemas.Null).





End invariants.

(** * Facts about the embedding *)

(** ** Trimming *)

Example strip_buy_milk : strip (lit "  Buy milk ") = lit "Buy milk".
Proof. reflexivity. Qed.

Example strip_spaces : strip (lit "   ") = [].
Proof. reflexivity. Qed.

Lemma lstrip_length (x : str) : (length (lstrip x) <= length x)%nat.
Proof.
  induction x as [|c x IH]; simpl; [lia|].
  destruct (isspace c); simpl; lia.
Qed.

Lemma rstrip_length (x : str) : (length (rstrip x) <= length x)%nat.
Proof.
  induction x as [|c x IH]; simpl; [lia|].
  destruct (rstrip x) as [|d r]; [destruct (isspace c)|]; simpl in *; lia.
Qed.

Lemma strip_length (x : str) : len (strip x) <= len x.
Proof.
  unfold len, strip.
  pose proof (rstrip_length (lstrip x)). pose proof (lstrip_length x). lia.
Qed.

Lemma rstrip_cons_keep (c : ascii) (x : str) :
  isspace c = false -> rstrip (c :: x) = c :: rstrip x.
Proof.
  intros Hc. simpl. rewrite Hc. by destruct (rstrip x).
Qed.

Lemma rstrip_idem (x : str) : rstrip (rstrip x) = rstrip x.
Proof.
  induction x as [|c x IH]; [done|].
  simpl. destruct (rstrip x) as [|d r] eqn:Hr.
  - destruct (isspace c) eqn:Hc; [done|]. simpl. by rewrite Hc.
  - change (rstrip (c :: d :: r)) with
      (match rstrip (d :: r) with
       | [] => if isspace c then [] else [c]
       | r0 => c :: r0
       end).
    by rewrite IH.
Qed.

Lemma lstrip_cases (x : str) :
  lstrip x = [] \/ exists c y, lstrip x = c :: y /\ isspace c = false.
Proof.
  induction x as [|c x IH]; [by left|].
  simpl. destruct (isspace c) eqn:Hc; [done|]. right. eauto.
Qed.

Lemma strip_idem (x : str) : strip (strip x) = strip x.
Proof.
  unfold strip.
  destruct (lstrip_cases x) as [->|(c & y & -> & Hc)]; [done|].
  rewrite (rstrip_cons_keep c y Hc). simpl lstrip. rewrite Hc.
  rewrite <- (rstrip_cons_keep c y Hc). apply rstrip_idem.
Qed.



(** ** The two status enumerations *)

Lemma to_model_status_total (st : schemas.TaskStatus) :
  main.to_model_status st =
  Some (match st with
        | schemas.pending => models.PENDING
        | schemas.completed => models.COMPLETED
        end).
Proof. by destruct st. Qed.

Lemma to_model_status_value (st : schemas.TaskStatus) (m : models.TaskStatus) :
  main.to_model_status st = Some m -> models.value m = schemas.value st.
Proof. rewrite to_model_status_total. intros [= <-]. by destruct st. Qed.


(** ** Pattern matching *)

Example ilike_milk : ilike (lit "%MILK%") (lit "Buy milk") = LIKE_TRUE.
Proof. reflexivity. Qed.

Example ilike_no_match : ilike (lit "%eggs%") (lit "Buy milk") = LIKE_FALSE.
Proof. reflexivity. Qed.

Example like_escaped_percent : like (lit "100\%") (lit "100%") = LIKE_TRUE.
Proof. reflexivity. Qed.

Example like_lone_backslash : like (lit "a\") (lit "a") = LIKE_ERROR.
Proof. reflexivity. Qed.

Lemma like_nil (t : str) :
  like [] t = match t with [] => LIKE_TRUE | _ => LIKE_FALSE end.
Proof. done. Qed.

Lemma like_pct (p t : str) :
  like (pct :: p) t =
  like_or (like p t)
          match t with
          | [] => LIKE_FALSE
          | _ :: t' => like (pct :: p) t'
          end.
Proof. by destruct t. Qed.

Lemma like_und (p t : str) :
  like (und :: p) t =
  match t with
  | [] => LIKE_FALSE
  | _ :: t' => like p t'
  end.
Proof. done. Qed.

Lemma like_esc (d : ascii) (p t : str) :
  like (esc :: d :: p) t =
  match t with
  | [] => LIKE_FALSE
  | e :: t' => if Ascii.eqb d e then like p t' else LIKE_FALSE
  end.
Proof. done. Qed.

Lemma like_chr (c : ascii) (p t : str) :
  c <> pct -> c <> und -> c <> esc ->
  like (c :: p) t =
  match t with
  | [] => LIKE_FALSE
  | e :: t' => if Ascii.eqb c e then like p t' else LIKE_FALSE
  end.
Proof.
  intros H1 H2 H3. apply Ascii.eqb_neq in H1, H2, H3.
  simpl. by rewrite H1, H2, H3.
Qed.

(** A pattern that ends in [%] never makes the engine raise: the last
    character is not a lone backslash. *)
Lemma like_no_error_aux (n : nat) :
  forall p t, (length p <= n)%nat -> like (p ++ [pct]) t <> LIKE_ERROR.
Proof.
  induction n as [|n IH]; intros p t Hn.
  - destruct p; [|simpl in Hn; lia]. simpl app.
    induction t as [|e t IHt]; rewrite like_pct, like_nil; simpl; done.
  - destruct p as [|c p]; [apply (IH [] t); simpl; lia|].
    simpl in Hn. rewrite <- app_comm_cons.
    destruct (decide (c = pct)) as [->|H1].
    { induction t as [|e t IHt]; rewrite like_pct.
      - pose proof (IH p [] ltac:(lia)). by destruct (like (p ++ [pct]) []).
      - pose proof (IH p (e :: t) ltac:(lia)).
        by destruct (like (p ++ [pct]) (e :: t)). }
    destruct (decide (c = und)) as [->|H2].
    { rewrite like_und. destruct t; [done|]. apply IH. lia. }
    destruct (decide (c = esc)) as [->|H3].
    { destruct p as [|d p]; simpl app.
      - rewrite like_esc. destruct t as [|e t]; [done|].
        destruct (Ascii.eqb pct e); [|done]. by destruct t.
      - rewrite like_esc. destruct t as [|e t]; [done|].
        destruct (Ascii.eqb d e); [|done]. apply IH. simpl in Hn. lia. }
    rewrite like_chr by done. destruct t as [|e t]; [done|].
    destruct (Ascii.eqb c e); [|done]. apply IH. lia.
Qed.

Lemma lower_char_special (c : ascii) :
  (lower_char c = pct <-> c = pct) /\
  (lower_char c = und <-> c = und) /\
  (lower_char c = esc <-> c = esc).
Proof.
  destruct c as [[] [] [] [] [] [] [] []]; vm_compute; repeat split; congruence.
Qed.

Lemma lower_ilike_expr (q : str) :
  lower (main.ilike_expr q) = main.ilike_expr (lower q).
Proof.
  unfold main.ilike_expr, lower. simpl. by rewrite map_app.
Qed.

Lemma ilike_no_error (q t : str) : ilike (main.ilike_expr q) t <> LIKE_ERROR.
Proof.
  unfold ilike. rewrite lower_ilike_expr. unfold main.ilike_expr.
  change (pct :: lower q ++ [pct]) with ((pct :: lower q) ++ [pct]).
  by apply (like_no_error_aux (S (length (lower q)))).
Qed.

(** With a pattern that cannot raise, the WHERE clause is a filter. *)
Lemma where_ilike_filter (q : option str) (l : list models.Task) :
  database.apply_where (main.where_of q) l = Some (List.filter (main.matches q) l).
Proof.
  unfold main.matches. destruct (main.where_of q) as [p|] eqn:Hw; simpl.
  2:{ f_equal. induction l; simpl; congruence. }
  assert (forall t, ilike p t <> LIKE_ERROR) as Hne.
  { destruct q as [q|]; [|done]. simpl in Hw. case_bool_decide; [done|].
    injection Hw as <-. apply ilike_no_error. }
  induction l as [|r l IH]; [done|].
  simpl. specialize (Hne (models.title r)).
  destruct (ilike p (models.title r)); [by rewrite IH|done|done].
Qed.

(** ** Substring search and wildcards *)

Lemma startswith_app (q t : str) :
  spec.startswith q t = true <-> exists b, t = q ++ b.
Proof.
  revert t. induction q as [|c q IH]; intros t; simpl.
  - split; [eauto|done].
  - destruct t as [|e t]; [split; [done|by intros [? ?]]|].
    rewrite andb_true_iff, IH, Ascii.eqb_eq. split.
    + intros [-> [b ->]]. eauto.
    + intros [b [= -> ->]]. eauto.
Qed.

(** [spec.contains] is the substring relation. *)
Lemma contains_app (q t : str) :
  spec.contains q t = true <-> exists a b, t = a ++ q ++ b.
Proof.
  induction t as [|e t IH]; simpl.
  - rewrite orb_false_r, startswith_app. split.
    + intros [b ->]. by exists [], b.
    + intros (a & b & H). symmetry in H.
      apply app_eq_nil in H as [-> H]. eauto.
  - rewrite orb_true_iff, startswith_app, IH. split.
    + intros [[b ->]|(a & b & ->)]; [by exists [], b|by exists (e :: a), b].
    + intros ([|e' a] & b & H); simpl in H; [eauto|].
      injection H as <- ->. eauto.
Qed.







Lemma pct_und_esc_distinct : pct <> und /\ pct <> esc /\ und <> esc.
Proof. repeat split; discriminate. Qed.

Lemma wild_nil_inv (t : str) : spec.wild [] t -> t = [].
Proof. by inversion 1. Qed.

Lemma wild_pct_inv (p t : str) :
  spec.wild (pct :: p) t -> exists u t', t = u ++ t' /\ spec.wild p t'.
Proof. inversion 1; subst; try done; eauto. Qed.

Lemma wild_und_inv (p t : str) :
  spec.wild (und :: p) t -> exists c t', t = c :: t' /\ spec.wild p t'.
Proof. inversion 1; subst; try done; eauto. Qed.

Lemma wild_chr_inv (c : ascii) (p t : str) :
  c <> pct -> c <> und ->
  spec.wild (c :: p) t -> exists t', t = c :: t' /\ spec.wild p t'.
Proof. intros H1 H2. inversion 1; subst; try done; eauto. Qed.

(** Without a backslash in the pattern, the engine's match is wildcard
    matching, and it never raises. *)
Lemma like_wild (p : str) :
  esc ∉ p ->
  forall t, (like p t = LIKE_TRUE /\ spec.wild p t) \/
            (like p t = LIKE_FALSE /\ ~ spec.wild p t).
Proof.
  induction p as [|c p IH]; intros Hp t.
  - destruct t; [left|right]; split; try done; [constructor|].
    intros H. by apply wild_nil_inv in H.
  - apply not_elem_of_cons in Hp as [Hc Hp]. specialize (IH Hp).
    destruct (decide (c = pct)) as [->|H1].
    { induction t as [|e t IHt]; rewrite like_pct.
      - destruct (IH []) as [[-> Hw]|[-> Hw]]; cbn [like_or].
        + left. split; [done|]. by apply (spec.wild_pct p [] []).
        + right. split; [done|]. intros (u & t' & E & Hw')%wild_pct_inv.
          symmetry in E. apply app_eq_nil in E as [_ ->]. done.
      - destruct (IH (e :: t)) as [[-> Hw]|[-> Hw]]; cbn [like_or].
        + left. split; [done|]. by apply (spec.wild_pct p [] (e :: t)).
        + destruct IHt as [[-> Ht]|[-> Ht]]; [left|right]; split; try done.
          * apply wild_pct_inv in Ht as (u & t' & -> & Hw').
            by apply (spec.wild_pct p (e :: u) t').
          * intros ([|e' u] & t' & E & Hw')%wild_pct_inv; simpl in E.
            -- by subst.
            -- injection E as <- ->. apply Ht. by constructor. }
    destruct (decide (c = und)) as [->|H2].
    { rewrite like_und. destruct t as [|e t].
      - right. split; [done|]. by intros (? & ? & ? & _)%wild_und_inv.
      - destruct (IH t) as [[-> Hw]|[-> Hw]]; [left|right]; split; try done.
        + by constructor.
        + intros (? & ? & [= <- <-] & ?)%wild_und_inv. done. }
    rewrite like_chr by done. destruct t as [|e t].
    { right. split; [done|]. by intros (? & ? & _)%wild_chr_inv. }
    destruct (Ascii.eqb c e) eqn:E.
    + apply Ascii.eqb_eq in E as <-.
      destruct (IH t) as [[-> Hw]|[-> Hw]]; [left|right]; split; try done.
      * by constructor.
      * intros (? & [= <-] & ?)%wild_chr_inv; done.
    + apply Ascii.eqb_neq in E. right. split; [done|].
      intros (? & [= <- <-] & ?)%wild_chr_inv; done.
Qed.

Lemma esc_not_in_lower (q : str) : esc ∉ q -> esc ∉ lower q.
Proof.
  unfold lower. intros Hq (c & E & Hc)%list_elem_of_fmap.
  destruct (lower_char_special c) as (_ & _ & E3).
  symmetry in E. apply E3 in E. by subst.
Qed.

(** ** Listing *)

Global Instance created_at_desc_total : Total database.created_at_desc.
Proof. intros a b. unfold database.created_at_desc. lia. Qed.

Global Instance created_at_desc_trans : Transitive database.created_at_desc.
Proof. intros a b c. unfold database.created_at_desc. lia. Qed.


Lemma order_by_perm (l : list models.Task) :
  database.order_by_created_at_desc l ≡ₚ l.
Proof. apply merge_sort_Permutation. Qed.





(** A row is listed exactly when [get] finds it under its [id]. *)
Lemma elem_of_rows (db : database.Session) (task : models.Task) :
  task ∈ database.rows db <-> database.get db (models.id task) = Some task.
Proof.
  unfold database.rows, database.get. rewrite list_elem_of_fmap. split.
  - intros ([k r] & -> & Hkr). apply elem_of_map_to_list in Hkr.
    simpl. by rewrite Hkr.
  - destruct (database.tasks db !! models.id task) as [r|] eqn:Hr; [|done].
    simpl. intros [= E]. exists (models.id task, r). split; [done|].
    by apply elem_of_map_to_list.
Qed.

Lemma query_ok_spec (page page_size : Z) :
  main.query_ok page page_size = true <-> 1 <= page /\ 1 <= page_size <= 100.
Proof. unfold main.query_ok. rewrite !andb_true_iff, !Z.leb_le. lia. Qed.

(** What [list_tasks] returns for parameters in range. *)
Lemma list_tasks_eq (page page_size : Z) (q : option str) (db : database.Session) :
  1 <= page -> 1 <= page_size <= 100 ->
  main.list_tasks page page_size q db =
  main.Return
    (main.mkPaginatedTasks
       (Z.of_nat (length (List.filter (main.matches q) (database.rows db))))
       page page_size
       (take (Z.to_nat page_size)
             (drop (Z.to_nat ((page - 1) * page_size))
                   (database.order_by_created_at_desc
                      (List.filter (main.matches q) (database.rows db)))))).
Proof.
  intros Hp Hs. unfold main.list_tasks.
  rewrite (proj2 (query_ok_spec page page_size)) by done. simpl.
  unfold database.execute_count, database.execute_select.
  by rewrite where_ilike_filter.
Qed.











(** ** The store *)

Lemma load_columns (task : models.Task) :
  database.load (models.id task) (database.columns task) = task.
Proof. by destruct task. Qed.

(** The object found under a key carries that key as its [id]. *)
Lemma get_id (db : database.Session) (k : Z) (task : models.Task) :
  database.get db k = Some task -> models.id task = k.
Proof.
  unfold database.get. destruct (database.tasks db !! k); [|done].
  by intros [= <-].
Qed.

Lemma get_update_eq (task : models.Task) (db : database.Session) :
  database.get (database.update task db).2 (models.id task) = Some task.
Proof.
  unfold database.get, database.update. simpl.
  rewrite lookup_insert_eq. simpl. f_equal. apply load_columns.
Qed.

Lemma get_update_ne (task : models.Task) (db : database.Session) (k : Z) :
  k <> models.id task ->
  database.get (database.update task db).2 k = database.get db k.
Proof.
  intros Hk. unfold database.get, database.update. simpl.
  by rewrite lookup_insert_ne.
Qed.

Lemma get_insert_eq (r : database.Row) (db : database.Session) :
  database.get (database.insert r db).2 (database.tasks_id_seq db) =
  Some (database.insert r db).1.
Proof. unfold database.get, database.insert. simpl. by rewrite lookup_insert_eq. Qed.

Lemma get_insert_ne (r : database.Row) (db : database.Session) (k : Z) :
  k <> database.tasks_id_seq db ->
  database.get (database.insert r db).2 k = database.get db k.
Proof.
  intros Hk. unfold database.get, database.insert. simpl.
  by rewrite lookup_insert_ne.
Qed.

Lemma get_delete_eq (task : models.Task) (db : database.Session) :
  database.get (database.delete task db) (models.id task) = None.
Proof. unfold database.get, database.delete. simpl. by rewrite lookup_delete_eq. Qed.

Lemma get_delete_ne (task : models.Task) (db : database.Session) (k : Z) :
  k <> models.id task ->
  database.get (database.delete task db) k = database.get db k.
Proof.
  intros Hk. unfold database.get, database.delete. simpl.
  by rewrite lookup_delete_ne.
Qed.

(** ** Partial update *)


Lemma patch_task_found (task_id : Z) (payload : schemas.TaskUpdate.t) (now : Z)
    (db : database.Session) (task : models.Task) :
  database.get db task_id = Some task ->
  exists task',
    main.patch_task task_id payload now db =
      (main.Return task', (database.update task' db).2) /\
    models.id task' = models.id task /\
    models.created_at task' = models.created_at task /\
    models.updated_at task' = now /\
    models.title task' =
      match schemas.TaskUpdate.title payload with
      | Some v => strip v
      | None => models.title task
      end /\
    models.description task' =
      match schemas.TaskUpdate.description payload with
      | Some v => Some v
      | None => models.description task
      end /\
    models.status task' =
      match schemas.TaskUpdate.status payload with
      | Some schemas.pending => models.PENDING
      | Some schemas.completed => models.COMPLETED
      | None => models.status task
      end.
Proof.
  intros Hg. unfold main.patch_task. rewrite Hg.
  destruct payload as [[t|] [d|] [[]|]]; eexists; (split; [reflexivity|done]).
Qed.




(** ** Creation *)



Lemma create_parse_title_long (f : schemas.field str) (v : str) :
  f = schemas.Value v -> 255 < len v -> schemas.TaskCreate.parse_title f = None.
Proof.
  intros -> Hv. simpl. unfold schemas.length_ok.
  by rewrite (proj2 (Z.leb_gt _ _) Hv), andb_false_r.
Qed.

Lemma update_parse_title_long (f : schemas.field str) (v : str) :
  f = schemas.Value v -> 255 < len v -> schemas.TaskUpdate.parse_title f = None.
Proof.
  intros -> Hv. simpl. unfold schemas.length_ok.
  by rewrite (proj2 (Z.leb_gt _ _) Hv), andb_false_r.
Qed.



(** C10. On create and on replace (and on patch when a title is given) the
    bound of 255 characters is checked on the title as received: a title of
    more than 255 characters is answered with 422 and the store is left as
    it was, whatever its length after trimming; there are such titles whose
    trimmed length is within the bound. *)
Theorem title_length_checked_before_trim (task_id : Z) (body : schemas.Body.t)
    (now : Z) (db : database.Session) (v : str) :
  schemas.Body.title body = schemas.Value v ->
  255 < len v ->
  main.POST_tasks body now db = (main.Raise main.HTTP_422_UNPROCESSABLE_ENTITY, db) /\
  main.PUT_task task_id body now db =
    (main.Raise main.HTTP_422_UNPROCESSABLE_ENTITY, db) /\
  main.PATCH_task task_id body now db =
    (main.Raise main.HTTP_422_UNPROCESSABLE_ENTITY, db) /\
  exists v', 255 < len v' /\ 1 <= len (strip v') <= 255.
Proof.
  intros Hb Hv.
  unfold main.POST_tasks, main.PUT_task, main.PATCH_task,
    schemas.TaskCreate.validate, schemas.TaskUpdate.validate.
  rewrite (create_parse_title_long _ v Hb Hv), (update_parse_title_long _ v Hb Hv).
  repeat split; try done.
  exists examples.long_title. by vm_compute.
Qed.

Lemma title_length_checked_before_trim_witness :
  len examples.long_title = 256 /\
  len (strip examples.long_title) = 1 /\
  main.POST_tasks examples.body_long 30 examples.db2 =
    (main.Raise main.HTTP_422_UNPROCESSABLE_ENTITY, examples.db2) /\
  main.PUT_task 1 examples.body_long 30 examples.db2 =
    (main.Raise main.HTTP_422_UNPROCESSABLE_ENTITY, examples.db2) /\
  main.PATCH_task 1 examples.body_long 30 examples.db2 =
    (main.Raise main.HTTP_422_UNPROCESSABLE_ENTITY, examples.db2) /\
  exists v', 255 < len v' /\ 1 <= len (strip v') <= 255.
Proof.
  split; [reflexivity|]. split; [reflexivity|].
  apply (title_length_checked_before_trim 1 examples.body_long 30 examples.db2
           examples.long_title eq_refl).
  reflexivity.
Defined.

(** ** Toggle *)

Lemma toggle_found (task_id now : Z) (db : database.Session) (task : models.Task) :
  database.get db task_id = Some task ->
  exists task',
    main.toggle_task_status task_id now db =
      (main.Return task', (database.update task' db).2) /\
    models.id task' = models.id task /\
    models.title task' = models.title task /\
    models.description task' = models.description task /\
    models.created_at task' = models.created_at task /\
    models.updated_at task' = now /\
    models.status task' =
      match models.status task with
      | models.PENDING => models.COMPLETED
      | models.COMPLETED => models.PENDING
      end.
Proof.
  intros Hg. unfold main.toggle_task_status. rewrite Hg.
  eexists. split; [reflexivity|]. simpl. repeat split.
  by destruct (models.status task).
Qed.

(** C6. On an existing task [toggle_task_status] turns [pending] into
    [completed] and [completed] into [pending] and sets [updated_at] to the
    clock reading; a second toggle brings the status back to what it was
    and sets [updated_at] again.  Nothing else of the task changes. *)
Theorem toggle_twice_restores_status (task_id now1 now2 : Z)
    (db : database.Session) (task : models.Task) :
  database.get db task_id = Some task ->
  exists t1 db1 t2 db2,
    main.toggle_task_status task_id now1 db = (main.Return t1, db1) /\
    main.toggle_task_status task_id now2 db1 = (main.Return t2, db2) /\
    models.status t1 =
      match models.status task with
      | models.PENDING => models.COMPLETED
      | models.COMPLETED => models.PENDING
      end /\
    models.updated_at t1 = now1 /\
    database.get db1 task_id = Some t1 /\
    models.status t2 = models.status task /\
    models.updated_at t2 = now2 /\
    database.get db2 task_id = Some t2 /\
    t2 = models.touch now2 task.
Proof.
  intros Hg. pose proof (get_id db task_id task Hg) as Hid.
  destruct (toggle_found task_id now1 db task Hg)
    as (t1 & H1 & Hi1 & Hti1 & Hd1 & Hc1 & Hu1 & Hs1).
  assert (database.get (database.update t1 db).2 task_id = Some t1) as Hg1.
  { rewrite <- Hid, <- Hi1. apply get_update_eq. }
  destruct (toggle_found task_id now2 _ t1 Hg1)
    as (t2 & H2 & Hi2 & Hti2 & Hd2 & Hc2 & Hu2 & Hs2).
  exists t1, (database.update t1 db).2, t2, (database.update t2 (database.update t1 db).2).2.
  assert (models.status t2 = models.status task) as Hs.
  { rewrite Hs2, Hs1. by destruct (models.status task). }
  repeat split; try done.
  - rewrite <- Hid, <- Hi1, <- Hi2. apply get_update_eq.
  - clear H1 H2 Hg Hg1 Hs1 Hs2. destruct t2, task. unfold models.touch.
    simpl in *. congruence.
Qed.

Lemma toggle_twice_restores_status_witness :
  exists t1 db1 t2 db2,
    main.toggle_task_status 1 30 examples.db2 = (main.Return t1, db1) /\
    main.toggle_task_status 1 40 db1 = (main.Return t2, db2) /\
    models.status t1 = models.COMPLETED /\
    models.updated_at t1 = 30 /\
    database.get db1 1 = Some t1 /\
    models.status t2 = models.PENDING /\
    models.updated_at t2 = 40 /\
    database.get db2 1 = Some t2 /\
    t2 = models.touch 40 examples.task_milk.
Proof.
  apply (toggle_twice_restores_status 1 30 40 examples.db2 examples.task_milk).
  - reflexivity.
Defined.

(** ** Replacement *)


Lemma update_task_found (task_id : Z) (payload : schemas.TaskCreate.t) (now : Z)
    (db : database.Session) (task : models.Task) :
  database.get db task_id = Some task ->
  exists task',
    main.update_task task_id payload now db =
      (main.Return task', (database.update task' db).2) /\
    models.id task' = models.id task /\
    models.created_at task' = models.created_at task /\
    models.updated_at task' = now /\
    models.title task' = strip (schemas.TaskCreate.title payload) /\
    models.description task' = schemas.TaskCreate.description payload /\
    models.value (models.status task') =
      schemas.value (schemas.TaskCreate.status payload).
Proof.
  intros Hg. unfold main.update_task. rewrite Hg, to_model_status_total.
  eexists. split; [reflexivity|]. simpl. repeat split.
  by destruct (schemas.TaskCreate.status payload).
Qed.



(** ** Unknown ids *)



(** ** Timestamps along a run *)




Lemma create_task_stamps (payload : schemas.TaskCreate.t) (now : Z)
    (db db' : database.Session) (task : models.Task) :
  main.create_task payload now db = (main.Return task, db') ->
  models.created_at task = now /\ models.updated_at task = now /\
  exists r, task = (database.insert r db).1 /\ db' = (database.insert r db).2.
Proof.
  unfold main.create_task. rewrite to_model_status_total. simpl.
  intros [= <- <-]. eauto.
Qed.

Lemma create_task_returns (payload : schemas.TaskCreate.t) (now : Z)
    (db : database.Session) :
  exists task db', main.create_task payload now db = (main.Return task, db').
Proof.
  unfold main.create_task. rewrite to_model_status_total. simpl. eauto.
Qed.





(** ** The scenario of the specification *)

(** "Buy milk" is created, toggled, found by search and deleted; after the
    deletion its id is unknown. *)
Example scenario_buy_milk :
  let created := main.POST_tasks (examples.body "Buy milk") 10 database.empty in
  let toggled := main.toggle_task_status 1 20 created.2 in
  let deleted := main.delete_task 1 toggled.2 in
  created.1 = main.Return (models.mkTask 1 (lit "Buy milk") None models.PENDING 10 10) /\
  toggled.1 = main.Return (models.mkTask 1 (lit "Buy milk") None models.COMPLETED 10 20) /\
  main.list_tasks 1 10 (Some (lit "milk")) toggled.2 =
    main.Return (main.mkPaginatedTasks 1 1 10
      [models.mkTask 1 (lit "Buy milk") None models.COMPLETED 10 20]) /\
  deleted.1 = main.Return tt /\
  main.get_task 1 deleted.2 = main.Raise main.HTTP_404_NOT_FOUND.
Proof. by vm_compute. Qed.

(** * Further properties of the handlers *)

(** ** Creation, lookup and the sequence of ids *)


Lemma get_none_above_seq (db : database.Session) (k : Z) :
  invariants.fresh db -> database.tasks_id_seq db <= k -> database.get db k = None.
Proof.
  intros [_ Hdb] Hk. destruct (database.get db k) as [task|] eqn:Hg; [|done].
  specialize (Hdb k task Hg). lia.
Qed.

Lemma seq_insert (r : database.Row) (db : database.Session) :
  database.tasks_id_seq (database.insert r db).2 = database.tasks_id_seq db + 1.
Proof. done. Qed.

Lemma fresh_empty : invariants.fresh database.empty.
Proof.
  split; [done|]. intros k task. unfold database.get. simpl.
  by rewrite lookup_empty.
Qed.

(** What a request that names a task does to the rest of the store: the
    sequence and every other id are as before. *)
Lemma mutation_cases (task_id : Z) (f : database.Session -> database.Session)
    (db : database.Session) :
  (f db = db \/
   (exists task task', database.get db task_id = Some task /\
                       models.id task' = task_id /\
                       f db = (database.update task' db).2) \/
   (exists task, database.get db task_id = Some task /\
                 f db = database.delete task db)) ->
  database.tasks_id_seq (f db) = database.tasks_id_seq db /\
  (forall k, k <> task_id -> database.get (f db) k = database.get db k) /\
  (forall k task, database.get (f db) k = Some task -> is_Some (database.get db k)).
Proof.
  intros [->|[(task & task' & Hg & Hi & ->)|(task & Hg & ->)]].
  - repeat split; eauto.
  - split; [done|]. split.
    + intros k Hk. apply get_update_ne. congruence.
    + intros k t Hk. destruct (decide (k = task_id)) as [->|Hne]; [by eexists|].
      rewrite get_update_ne in Hk by congruence. by eexists.
  - pose proof (get_id db task_id task Hg) as Hi. split; [done|]. split.
    + intros k Hk. apply get_delete_ne. congruence.
    + intros k t Hk. destruct (decide (k = task_id)) as [->|Hne]; [by eexists|].
      rewrite get_delete_ne in Hk by congruence. by eexists.
Qed.

Lemma PUT_task_cases (task_id : Z) (body : schemas.Body.t) (now : Z)
    (db : database.Session) :
  (main.PUT_task task_id body now db).2 = db \/
  (exists task task', database.get db task_id = Some task /\
                      models.id task' = task_id /\
                      (main.PUT_task task_id body now db).2 = (database.update task' db).2) \/
  (exists task, database.get db task_id = Some task /\
                (main.PUT_task task_id body now db).2 = database.delete task db).
Proof.
  unfold main.PUT_task.
  destruct (schemas.TaskCreate.validate body) as [payload|]; [|by left].
  destruct (database.get db task_id) as [task|] eqn:Hg.
  - destruct (update_task_found task_id payload now db task Hg) as (task' & -> & Hi & _).
    right. left. exists task, task'. repeat split; try done.
    rewrite Hi. by apply get_id in Hg.
  - left. unfold main.update_task. by rewrite Hg.
Qed.

Lemma PATCH_task_cases (task_id : Z) (body : schemas.Body.t) (now : Z)
    (db : database.Session) :
  (main.PATCH_task task_id body now db).2 = db \/
  (exists task task', database.get db task_id = Some task /\
                      models.id task' = task_id /\
                      (main.PATCH_task task_id body now db).2 = (database.update task' db).2) \/
  (exists task, database.get db task_id = Some task /\
                (main.PATCH_task task_id body now db).2 = database.delete task db).
Proof.
  unfold main.PATCH_task.
  destruct (schemas.TaskUpdate.validate body) as [payload|]; [|by left].
  destruct (database.get db task_id) as [task|] eqn:Hg.
  - destruct (patch_task_found task_id payload now db task Hg) as (task' & -> & Hi & _).
    right. left. exists task, task'. repeat split; try done.
    rewrite Hi. by apply get_id in Hg.
  - left. unfold main.patch_task. by rewrite Hg.
Qed.

Lemma toggle_cases (task_id : Z) (now : Z) (db : database.Session) :
  (main.toggle_task_status task_id now db).2 = db \/
  (exists task task', database.get db task_id = Some task /\
                      models.id task' = task_id /\
                      (main.toggle_task_status task_id now db).2 =
                        (database.update task' db).2) \/
  (exists task, database.get db task_id = Some task /\
                (main.toggle_task_status task_id now db).2 = database.delete task db).
Proof.
  destruct (database.get db task_id) as [task|] eqn:Hg.
  - destruct (toggle_found task_id now db task Hg) as (task' & -> & Hi & _).
    right. left. exists task, task'. repeat split; try done.
    rewrite Hi. by apply get_id in Hg.
  - left. unfold main.toggle_task_status. by rewrite Hg.
Qed.

Lemma delete_cases (task_id : Z) (db : database.Session) :
  (main.delete_task task_id db).2 = db \/
  (exists task task', database.get db task_id = Some task /\
                      models.id task' = task_id /\
                      (main.delete_task task_id db).2 = (database.update task' db).2) \/
  (exists task, database.get db task_id = Some task /\
                (main.delete_task task_id db).2 = database.delete task db).
Proof.
  unfold main.delete_task.
  destruct (database.get db task_id) as [task|] eqn:Hg; [|by left].
  right. right. by exists task.
Qed.

(** X2. A PUT, a PATCH, a toggle and a DELETE on one id leave the sequence
    and the task under every other id as they were, whatever the outcome of
    the request. *)
Theorem mutation_frame (task_id : Z) (body : schemas.Body.t) (now : Z)
    (db : database.Session) (k : Z) :
  k <> task_id ->
  let put := (main.PUT_task task_id body now db).2 in
  let patch := (main.PATCH_task task_id body now db).2 in
  let toggle := (main.toggle_task_status task_id now db).2 in
  let del := (main.delete_task task_id db).2 in
  (database.get put k = database.get db k /\
   database.tasks_id_seq put = database.tasks_id_seq db) /\
  (database.get patch k = database.get db k /\
   database.tasks_id_seq patch = database.tasks_id_seq db) /\
  (database.get toggle k = database.get db k /\
   database.tasks_id_seq toggle = database.tasks_id_seq db) /\
  (database.get del k = database.get db k /\
   database.tasks_id_seq del = database.tasks_id_seq db).
Proof.
  intros Hk. simpl.
  pose proof (mutation_cases task_id
    (fun db => (main.PUT_task task_id body now db).2) db
    (PUT_task_cases task_id body now db)) as (H1 & H2 & _).
  pose proof (mutation_cases task_id
    (fun db => (main.PATCH_task task_id body now db).2) db
    (PATCH_task_cases task_id body now db)) as (H3 & H4 & _).
  pose proof (mutation_cases task_id
    (fun db => (main.toggle_task_status task_id now db).2) db
    (toggle_cases task_id now db)) as (H5 & H6 & _).
  pose proof (mutation_cases task_id
    (fun db => (main.delete_task task_id db).2) db
    (delete_cases task_id db)) as (H7 & H8 & _).
  simpl in *. repeat split; auto.
Qed.

Lemma mutation_frame_witness :
  (database.get (main.PUT_task 1 examples.body_eggs 30 examples.db2).2 2 =
     database.get examples.db2 2 /\
   database.tasks_id_seq (main.PUT_task 1 examples.body_eggs 30 examples.db2).2 =
     database.tasks_id_seq examples.db2) /\
  (database.get (main.PATCH_task 1 examples.body_eggs 30 examples.db2).2 2 =
     database.get examples.db2 2 /\
   database.tasks_id_seq (main.PATCH_task 1 examples.body_eggs 30 examples.db2).2 =
     database.tasks_id_seq examples.db2) /\
  (database.get (main.toggle_task_status 1 30 examples.db2).2 2 =
     database.get examples.db2 2 /\
   database.tasks_id_seq (main.toggle_task_status 1 30 examples.db2).2 =
     database.tasks_id_seq examples.db2) /\
  (database.get (main.delete_task 1 examples.db2).2 2 = database.get examples.db2 2 /\
   database.tasks_id_seq (main.delete_task 1 examples.db2).2 =
     database.tasks_id_seq examples.db2).
Proof. apply (mutation_frame 1 examples.body_eggs 30 examples.db2 2). lia. Defined.

Lemma serve_fresh (r : main.Request) (now : Z) (db : database.Session) :
  invariants.fresh db ->
  invariants.fresh (main.serve r now db) /\
  database.tasks_id_seq db <= database.tasks_id_seq (main.serve r now db).
Proof.
  intros Hdb.
  assert (forall task_id (f : database.Session -> database.Session),
    (f db = db \/
     (exists task task', database.get db task_id = Some task /\
                         models.id task' = task_id /\
                         f db = (database.update task' db).2) \/
     (exists task, database.get db task_id = Some task /\
                   f db = database.delete task db)) ->
    invariants.fresh (f db) /\
    database.tasks_id_seq db <= database.tasks_id_seq (f db)) as Hmut.
  { intros task_id f Hf.
    destruct (mutation_cases task_id f db Hf) as (Hs & _ & Hsub).
    rewrite Hs. split; [|lia]. destruct Hdb as [H1 Hdb]. split; [by rewrite Hs|].
    intros k task Hg. rewrite Hs. destruct (Hsub k task Hg) as [t Ht]. eauto. }
  destruct r as [p ps q|body|k|k body|k|k body|k]; simpl; try (split; [done|lia]).
  - unfold main.POST_tasks.
    destruct (schemas.TaskCreate.validate body) as [payload|];
      [|simpl; split; [done|lia]].
    destruct (create_task_returns payload now db) as (task & db' & E).
    rewrite E. change ((main.Return task, db').2) with db'.
    apply create_task_stamps in E as (_ & _ & r & _ & ->).
    rewrite seq_insert. split; [|lia]. destruct Hdb as [H1 Hdb].
    split; [rewrite seq_insert; lia|].
    intros k task' Hg. rewrite seq_insert.
    destruct (decide (k = database.tasks_id_seq db)) as [->|Hk]; [lia|].
    rewrite get_insert_ne in Hg by done. specialize (Hdb k task' Hg). lia.
  - apply (Hmut k (fun db => (main.PUT_task k body now db).2)), PUT_task_cases.
  - apply (Hmut k (fun db => (main.delete_task k db).2)), delete_cases.
  - apply (Hmut k (fun db => (main.PATCH_task k body now db).2)), PATCH_task_cases.
  - apply (Hmut k (fun db => (main.toggle_task_status k now db).2)), toggle_cases.
Qed.

(** X3. Along every sequence of requests the ids in the store lie between
    1 and the next value of the sequence, and the sequence never goes back;
    so the id that the next creation draws is the id of no stored task. *)
Theorem run_ids_fresh (trace : list (Z * main.Request)) (db : database.Session) :
  invariants.fresh db ->
  invariants.fresh (main.run trace db) /\
  database.tasks_id_seq db <= database.tasks_id_seq (main.run trace db) /\
  database.get (main.run trace db) (database.tasks_id_seq (main.run trace db)) = None.
Proof.
  revert db. induction trace as [|[now r] trace IH]; intros db Hdb; simpl.
  - split; [done|]. split; [lia|]. by apply get_none_above_seq.
  - destruct (serve_fresh r now db Hdb) as [Hf Hs].
    destruct (IH _ Hf) as (H1 & H2 & H3). split; [done|]. split; [lia|done].
Qed.

Lemma run_ids_fresh_witness :
  invariants.fresh (main.run [(10, main.CreateTask examples.body_milk);
                              (20, main.DeleteTask 1);
                              (30, main.CreateTask examples.body_eggs)]
                             database.empty) /\
  database.tasks_id_seq database.empty <=
    database.tasks_id_seq
      (main.run [(10, main.CreateTask examples.body_milk);
                 (20, main.DeleteTask 1);
                 (30, main.CreateTask examples.body_eggs)]
                database.empty) /\
  database.get
    (main.run [(10, main.CreateTask examples.body_milk);
               (20, main.DeleteTask 1);
               (30, main.CreateTask examples.body_eggs)]
              database.empty)
    (database.tasks_id_seq
       (main.run [(10, main.CreateTask examples.body_milk);
                  (20, main.DeleteTask 1);
                  (30, main.CreateTask examples.body_eggs)]
                 database.empty)) = None.
Proof. apply run_ids_fresh. exact fresh_empty. Defined.

Lemma serve_keeps_gone (r : main.Request) (now : Z) (db : database.Session) (k : Z) :
  k < database.tasks_id_seq db ->
  database.get db k = None ->
  k < database.tasks_id_seq (main.serve r now db) /\
  database.get (main.serve r now db) k = None.
Proof.
  intros Hk Hg.
  assert (forall task_id (f : database.Session -> database.Session),
    (f db = db \/
     (exists task task', database.get db task_id = Some task /\
                         models.id task' = task_id /\
                         f db = (database.update task' db).2) \/
     (exists task, database.get db task_id = Some task /\
                   f db = database.delete task db)) ->
    k < database.tasks_id_seq (f db) /\ database.get (f db) k = None) as Hmut.
  { intros task_id f Hf.
    destruct (mutation_cases task_id f db Hf) as (Hs & _ & Hsub).
    rewrite Hs. split; [done|].
    destruct (database.get (f db) k) as [t|] eqn:E; [|done].
    destruct (Hsub k t E) as [t' Ht']. congruence. }
  destruct r as [p ps q|body|i|i body|i|i body|i]; simpl; try done.
  - unfold main.POST_tasks.
    destruct (schemas.TaskCreate.validate body) as [payload|]; [|done].
    destruct (create_task_returns payload now db) as (task & db' & E).
    rewrite E. change ((main.Return task, db').2) with db'.
    apply create_task_stamps in E as (_ & _ & r & _ & ->).
    rewrite seq_insert. split; [lia|]. rewrite get_insert_ne by lia. done.
  - apply (Hmut i (fun db => (main.PUT_task i body now db).2)), PUT_task_cases.
  - apply (Hmut i (fun db => (main.delete_task i db).2)), delete_cases.
  - apply (Hmut i (fun db => (main.PATCH_task i body now db).2)), PATCH_task_cases.
  - apply (Hmut i (fun db => (main.toggle_task_status i now db).2)), toggle_cases.
Qed.

(** X4. An id is never used twice: once a task has been deleted, no
    sequence of later requests puts a task under its id again. *)
Theorem deleted_id_not_reused (task_id : Z) (task : models.Task)
    (db : database.Session) (trace : list (Z * main.Request)) :
  invariants.fresh db ->
  database.get db task_id = Some task ->
  main.get_task task_id (main.run trace (main.delete_task task_id db).2) =
    main.Raise main.HTTP_404_NOT_FOUND.
Proof.
  intros Hdb Hg.
  assert (task_id < database.tasks_id_seq (main.delete_task task_id db).2 /\
          database.get (main.delete_task task_id db).2 task_id = None) as [Hk Hgone].
  { unfold main.delete_task. rewrite Hg. simpl. split.
    - destruct Hdb as [_ Hdb]. specialize (Hdb task_id task Hg). lia.
    - rewrite <- (get_id db task_id task Hg). apply get_delete_eq. }
  revert Hk Hgone. generalize (main.delete_task task_id db).2 as db1.
  induction trace as [|[now r] trace IH]; intros db1 Hk Hgone; simpl.
  - unfold main.get_task. by rewrite Hgone.
  - destruct (serve_keeps_gone r now db1 task_id Hk Hgone) as [Hk' Hg'].
    by apply IH.
Qed.

Lemma fresh_db2 : invariants.fresh examples.db2.
Proof. apply (run_ids_fresh _ database.empty fresh_empty). Qed.

Lemma deleted_id_not_reused_witness :
  main.get_task 1
    (main.run [(30, main.CreateTask examples.body_milk);
               (40, main.ReplaceTask 1 examples.body_eggs);
               (50, main.ToggleTask 1)]
              (main.delete_task 1 examples.db2).2) =
    main.Raise main.HTTP_404_NOT_FOUND.
Proof.
  apply (deleted_id_not_reused 1 examples.task_milk examples.db2).
  - exact fresh_db2.
  - reflexivity.
Defined.

(** ** Stored titles *)

Lemma rstrip_last (x : str) (c : ascii) :
  last (rstrip x) = Some c -> isspace c = false.
Proof.
  induction x as [|e x IH]; simpl; [done|].
  destruct (rstrip x) as [|d r] eqn:Hr.
  - destruct (isspace e) eqn:He; [done|]. by intros [= <-].
  - intros Hl. apply IH. by rewrite last_cons_cons in Hl.
Qed.

(** What [strip] returns has no white space at either end. *)
Lemma strip_ends (x : str) :
  (forall c, head (strip x) = Some c -> isspace c = false) /\
  (forall c, last (strip x) = Some c -> isspace c = false).
Proof.
  split; [|intros c; apply rstrip_last].
  unfold strip. destruct (lstrip_cases x) as [->|(e & y & -> & He)]; [done|].
  rewrite (rstrip_cons_keep e y He). by intros c [= <-].
Qed.

Lemma title_ok_strip (v : str) :
  schemas.length_ok v = true -> strip v <> [] -> invariants.title_ok (strip v).
Proof.
  intros Hl Hv. split; [done|]. split; [apply strip_idem|].
  unfold schemas.length_ok in Hl. apply andb_true_iff in Hl as [_ Hl%Z.leb_le].
  pose proof (strip_length v). lia.
Qed.

Lemma create_validate_title_ok (body : schemas.Body.t) (payload : schemas.TaskCreate.t) :
  schemas.TaskCreate.validate body = Some payload ->
  invariants.title_ok (strip (schemas.TaskCreate.title payload)).
Proof.
  unfold schemas.TaskCreate.validate. destruct body as [bt bd bs]. simpl.
  destruct bt as [| |v]; simpl; try done.
  destruct (schemas.length_ok v) eqn:Hl; [|done].
  unfold schemas.TaskCreate.title_not_empty. case_bool_decide as Hv; [done|]. simpl.
  destruct (schemas.TaskCreate.parse_status bs); [|done]. simpl.
  intros [= <-]. simpl. rewrite strip_idem. by apply title_ok_strip.
Qed.

Lemma update_validate_title_ok (body : schemas.Body.t) (payload : schemas.TaskUpdate.t)
    (v : str) :
  schemas.TaskUpdate.validate body = Some payload ->
  schemas.TaskUpdate.title payload = Some v ->
  invariants.title_ok (strip v).
Proof.
  unfold schemas.TaskUpdate.validate. destruct body as [bt bd bs]. simpl.
  destruct bt as [| |w]; simpl.
  1,2: destruct (schemas.TaskUpdate.parse_status bs); [|done]; simpl;
       by intros [= <-].
  destruct (schemas.length_ok w) eqn:Hl; [|done]. simpl.
  case_bool_decide as Hw; [done|]. simpl.
  destruct (schemas.TaskUpdate.parse_status bs); [|done]. simpl.
  intros [= <-]. simpl. intros [= <-]. rewrite strip_idem. by apply title_ok_strip.
Qed.

Lemma titles_ok_update (task : models.Task) (db : database.Session) :
  invariants.title_ok (models.title task) ->
  invariants.titles_ok db ->
  invariants.titles_ok (database.update task db).2.
Proof.
  intros Ht Hdb k task' Hg.
  destruct (decide (k = models.id task)) as [->|Hk].
  - rewrite get_update_eq in Hg. by injection Hg as <-.
  - rewrite get_update_ne in Hg by done. by apply (Hdb k).
Qed.

Lemma serve_titles_ok (r : main.Request) (now : Z) (db : database.Session) :
  invariants.titles_ok db -> invariants.titles_ok (main.serve r now db).
Proof.
  intros Hdb.
  destruct r as [p ps q|body|k|k body|k|k body|k]; simpl; try done.
  - unfold main.POST_tasks.
    destruct (schemas.TaskCreate.validate body) as [payload|] eqn:Hv; [|done].
    pose proof (create_validate_title_ok body payload Hv) as Hok.
    destruct (create_task_returns payload now db) as (task & db' & E).
    rewrite E. change ((main.Return task, db').2) with db'.
    assert (models.title task = strip (schemas.TaskCreate.title payload)) as Ht.
    { revert E. unfold main.create_task. rewrite to_model_status_total.
      by intros [= <- _]. }
    apply create_task_stamps in E as (_ & _ & r & Et & ->).
    intros k task' Hg.
    destruct (decide (k = database.tasks_id_seq db)) as [->|Hk].
    + rewrite get_insert_eq, <- Et in Hg. injection Hg as <-. by rewrite Ht.
    + rewrite get_insert_ne in Hg by done. by apply (Hdb k).
  - unfold main.PUT_task.
    destruct (schemas.TaskCreate.validate body) as [payload|] eqn:Hv; [|done].
    destruct (database.get db k) as [task|] eqn:Hg.
    + destruct (update_task_found k payload now db task Hg)
        as (task' & -> & _ & _ & _ & Ht & _).
      apply titles_ok_update; [|done]. rewrite Ht.
      by apply (create_validate_title_ok body).
    + unfold main.update_task. by rewrite Hg.
  - unfold main.delete_task. destruct (database.get db k) as [task|]; [|done].
    simpl. intros k' task' Hg.
    destruct (decide (k' = models.id task)) as [->|Hk].
    + by rewrite get_delete_eq in Hg.
    + rewrite get_delete_ne in Hg by done. by apply (Hdb k').
  - unfold main.PATCH_task.
    destruct (schemas.TaskUpdate.validate body) as [payload|] eqn:Hv; [|done].
    destruct (database.get db k) as [task|] eqn:Hg.
    + destruct (patch_task_found k payload now db task Hg)
        as (task' & -> & _ & _ & _ & Ht & _).
      apply titles_ok_update; [|done]. rewrite Ht.
      destruct (schemas.TaskUpdate.title payload) as [v|] eqn:Hp.
      * by apply (update_validate_title_ok body payload).
      * by apply (Hdb k).
    + unfold main.patch_task. by rewrite Hg.
  - destruct (database.get db k) as [task|] eqn:Hg.
    + destruct (toggle_found k now db task Hg) as (task' & -> & _ & Ht & _).
      apply titles_ok_update; [|done]. rewrite Ht. by apply (Hdb k).
    + unfold main.toggle_task_status. by rewrite Hg.
Qed.

Lemma run_titles_ok (trace : list (Z * main.Request)) (db : database.Session) :
  invariants.titles_ok db -> invariants.titles_ok (main.run trace db).
Proof.
  revert db. induction trace as [|[now r] trace IH]; intros db Hdb; [done|].
  simpl. by apply IH, serve_titles_ok.
Qed.

(** X5. Along every sequence of requests, starting from the empty store,
    every stored title is not empty, has at most 255 characters, is what
    [strip] leaves of it, and neither starts nor ends with white space. *)
Theorem stored_titles_trimmed (trace : list (Z * main.Request)) (k : Z)
    (task : models.Task) :
  database.get (main.run trace database.empty) k = Some task ->
  invariants.title_ok (models.title task) /\
  1 <= len (models.title task) <= 255 /\
  (forall c, head (models.title task) = Some c -> isspace c = false) /\
  (forall c, last (models.title task) = Some c -> isspace c = false).
Proof.
  intros Hg.
  assert (invariants.titles_ok database.empty) as H0.
  { intros i t. unfold database.get. simpl. by rewrite lookup_empty. }
  pose proof (run_titles_ok trace _ H0 k task Hg) as Hok. split; [done|].
  destruct Hok as (Hne & Hs & Hl). split.
  - split; [|done]. unfold len. destruct (models.title task); [done|]. simpl. lia.
  - rewrite <- Hs. apply strip_ends.
Qed.

Lemma stored_titles_trimmed_witness :
  invariants.title_ok (lit "Buy milk") /\
  1 <= len (lit "Buy milk") <= 255 /\
  (forall c, head (lit "Buy milk") = Some c -> isspace c = false) /\
  (forall c, last (lit "Buy milk") = Some c -> isspace c = false).
Proof.
  apply (stored_titles_trimmed
           [(10, main.CreateTask examples.body_milk);
            (20, main.CreateTask examples.body_eggs)] 1 examples.task_milk).
  reflexivity.
Defined.

(** ** Errors that are never raised *)


(** ** How the mutations relate *)

(** X7. A PATCH that supplies nothing (every member left out or [null])
    on an existing task still stamps it: the task returned and stored is
    the old one with [updated_at] set to the clock reading. *)
Theorem patch_nothing_touches (task_id : Z) (body : schemas.Body.t) (now : Z)
    (db : database.Session) (task : models.Task) :
  invariants.nothing_supplied body ->
  database.get db task_id = Some task ->
  main.PATCH_task task_id body now db =
    (main.Return (models.touch now task),
     (database.update (models.touch now task) db).2).
Proof.
  intros (Ht & Hd & Hs) Hg. unfold main.PATCH_task, schemas.TaskUpdate.validate.
  assert (schemas.TaskUpdate.parse_title (schemas.Body.title body) = Some None) as ->
    by (by destruct Ht as [-> | ->]).
  assert (schemas.TaskUpdate.parse_status (schemas.Body.status body) = Some None) as ->
    by (by destruct Hs as [-> | ->]).
  assert (schemas.parse_description (schemas.Body.description body) = None) as ->
    by (by destruct Hd as [-> | ->]).
  simpl. unfold main.patch_task. by rewrite Hg.
Qed.

Lemma patch_nothing_touches_witness :
  main.PATCH_task 2 examples.body_null_description 40 examples.db2 =
    (main.Return (models.touch 40 examples.task_eggs),
     (database.update (models.touch 40 examples.task_eggs) examples.db2).2).
Proof.
  apply (patch_nothing_touches 2 examples.body_null_description 40 examples.db2
           examples.task_eggs).
  - repeat split; auto.
  - reflexivity.
Defined.

(** X8. On an existing task the toggle route does what a PATCH does whose
    body holds the other status and nothing else: same answer, same store. *)
Theorem toggle_is_patch_of_other_status (task_id now : Z) (db : database.Session)
    (task : models.Task) :
  database.get db task_id = Some task ->
  main.toggle_task_status task_id now db =
  main.PATCH_task task_id
    (invariants.status_body (invariants.flip (models.status task))) now db.
Proof.
  intros Hg. unfold main.PATCH_task, main.toggle_task_status, main.patch_task.
  rewrite Hg. by destruct task as [i t d [] c u].
Qed.

Lemma toggle_is_patch_of_other_status_witness :
  main.toggle_task_status 1 30 examples.db2 =
  main.PATCH_task 1
    (invariants.status_body (invariants.flip (models.status examples.task_milk)))
    30 examples.db2.
Proof.
  apply (toggle_is_patch_of_other_status 1 30 examples.db2 examples.task_milk).
  reflexivity.
Defined.

(** X9. A body that gives all three members a value is handled alike by
    PUT and by PATCH: the same answer (422, 404 or the task) and the same
    store. *)
Theorem patch_full_body_is_put (task_id : Z) (body : schemas.Body.t) (now : Z)
    (db : database.Session) (v d sv : str) :
  schemas.Body.title body = schemas.Value v ->
  schemas.Body.description body = schemas.Value d ->
  schemas.Body.status body = schemas.Value sv ->
  main.PATCH_task task_id body now db = main.PUT_task task_id body now db.
Proof.
  intros Ht Hd Hs.
  unfold main.PATCH_task, main.PUT_task,
    schemas.TaskUpdate.validate, schemas.TaskCreate.validate.
  rewrite Ht, Hd, Hs. simpl.
  destruct (schemas.length_ok v); [|done].
  unfold schemas.TaskCreate.title_not_empty. simpl.
  case_bool_decide; [done|]. simpl.
  destruct (schemas.TaskStatus_of sv) as [st|]; [|done]. simpl.
  unfold main.patch_task, main.update_task. simpl.
  destruct (database.get db task_id) as [task|]; [|done].
  rewrite to_model_status_total. done.
Qed.

Lemma patch_full_body_is_put_witness :
  main.PATCH_task 1 examples.body_eggs 30 examples.db2 =
  main.PUT_task 1 examples.body_eggs 30 examples.db2.
Proof.
  apply (patch_full_body_is_put 1 examples.body_eggs 30 examples.db2
           (lit "Eggs") (lit "a dozen") (lit "completed")); reflexivity.
Defined.

Lemma update_update (t1 t2 : models.Task) (db : database.Session) :
  models.id t1 = models.id t2 ->
  (database.update t2 (database.update t1 db).2).2 = (database.update t2 db).2.
Proof.
  intros Hi. unfold database.update. simpl. f_equal.
  rewrite Hi. apply insert_insert_eq.
Qed.




(** ** Which bodies validate *)











(** ** More on listing *)







Lemma filter_sublist {A} (f : A -> bool) (l : list A) :
  List.filter f l `sublist_of` l.
Proof.
  induction l as [|x l IH]; simpl; [constructor|].
  destruct (f x); by constructor.
Qed.

Lemma rows_ids (db : database.Session) :
  models.id <$> database.rows db = (map_to_list (database.tasks db)).*1.
Proof.
  unfold database.rows. rewrite <- list_fmap_compose.
  apply list_fmap_ext. by intros _ [k r] _.
Qed.

Lemma items_sublist (page page_size : Z) (q : option str) (db : database.Session)
    (r : main.PaginatedTasks) :
  main.list_tasks page page_size q db = main.Return r ->
  exists ordered,
    main.items r `sublist_of` ordered /\
    ordered ≡ₚ List.filter (main.matches q) (database.rows db).
Proof.
  intros E. destruct (main.query_ok page page_size) eqn:Hq.
  2:{ unfold main.list_tasks in E. by rewrite Hq in E. }
  apply query_ok_spec in Hq as [Hp Hs]. rewrite list_tasks_eq in E by done.
  injection E as <-. simpl. eexists. split; [|apply order_by_perm].
  etrans; [apply sublist_take|apply sublist_drop].
Qed.

(** X16. What a listing shows is what the store holds: every item is the
    task that [get_task] returns for its id, it passes the filter of the
    query, and no id is listed twice. *)
Theorem list_items_stored (page page_size : Z) (q : option str)
    (db : database.Session) (r : main.PaginatedTasks) :
  main.list_tasks page page_size q db = main.Return r ->
  NoDup (models.id <$> main.items r) /\
  forall task, task ∈ main.items r ->
    main.get_task (models.id task) db = main.Return task /\
    main.matches q task = true.
Proof.
  intros E. destruct (items_sublist page page_size q db r E) as (ordered & Hsub & Hperm).
  split.
  - apply (sublist_NoDup _ (models.id <$> ordered)); [|by apply fmap_sublist].
    rewrite Hperm.
    apply (sublist_NoDup _ (models.id <$> database.rows db));
      [|apply fmap_sublist, filter_sublist].
    rewrite rows_ids. apply NoDup_fst_map_to_list.
  - intros task Hin.
    assert (task ∈ List.filter (main.matches q) (database.rows db)) as Hf.
    { rewrite <- Hperm. eapply elem_of_sublist; [exact Hin|exact Hsub]. }
    apply list_elem_of_In, filter_In in Hf as [Hrow Hm].
    apply list_elem_of_In, elem_of_rows in Hrow.
    unfold main.get_task. by rewrite Hrow.
Qed.

Lemma list_items_stored_witness :
  NoDup (models.id <$> [examples.task_eggs; examples.task_milk]) /\
  forall task, task ∈ [examples.task_eggs; examples.task_milk] ->
    main.get_task (models.id task) examples.db2 = main.Return task /\
    main.matches None task = true.
Proof.
  apply (list_items_stored 1 10 None examples.db2
           (main.mkPaginatedTasks 2 1 10 [examples.task_eggs; examples.task_milk])).
  by vm_compute.
Defined.






Lemma wild_refl (p : str) : spec.wild p p.
Proof.
  induction p as [|c p IH]; [constructor|].
  destruct (decide (c = pct)) as [->|H1]; [by apply (spec.wild_pct p [pct] p)|].
  destruct (decide (c = und)) as [->|H2]; by constructor.
Qed.

Lemma wild_app_pct (p t : str) : spec.wild p t -> spec.wild (p ++ [pct]) t.
Proof.
  induction 1 as [|p u t _ IH|p c t _ IH|c p t H1 H2 _ IH]; simpl.
  - apply (spec.wild_pct [] [] []). constructor.
  - by constructor.
  - by constructor.
  - by constructor.
Qed.

(** X19. A task is found by its own title: when the title holds no
    backslash, the query equal to the title passes the task through the
    filter, so the listing for that query counts at least one task. *)
Theorem search_by_own_title (task_id : Z) (task : models.Task) (page_size : Z)
    (db : database.Session) :
  database.get db task_id = Some task ->
  models.title task <> [] ->
  esc ∉ models.title task ->
  1 <= page_size <= 100 ->
  main.matches (Some (models.title task)) task = true /\
  exists r,
    main.list_tasks 1 page_size (Some (models.title task)) db = main.Return r /\
    1 <= main.total r.
Proof.
  intros Hg Hne Hesc Hs.
  assert (main.matches (Some (models.title task)) task = true) as Hm.
  { unfold main.matches, main.where_of. rewrite bool_decide_eq_false_2 by done.
    unfold ilike. rewrite lower_ilike_expr. unfold main.ilike_expr.
    assert (esc ∉ pct :: lower (models.title task) ++ [pct]) as Hp.
    { rewrite not_elem_of_cons, not_elem_of_app, not_elem_of_cons.
      pose proof pct_und_esc_distinct as (_ & ? & _).
      repeat split; [congruence|by apply esc_not_in_lower|congruence|].
      apply not_elem_of_nil. }
    destruct (like_wild _ Hp (lower (models.title task))) as [[-> _]|[_ Hw]]; [done|].
    exfalso. apply Hw.
    apply (spec.wild_pct _ [] (lower (models.title task))).
    apply wild_app_pct, wild_refl. }
  split; [done|]. eexists. split; [apply list_tasks_eq; [lia|done]|]. simpl.
  assert (task ∈ List.filter (main.matches (Some (models.title task)))
                             (database.rows db)) as Hin.
  { apply list_elem_of_In, filter_In. split; [|done].
    apply list_elem_of_In, elem_of_rows.
    by rewrite (get_id db task_id task Hg). }
  destruct (List.filter _ _); [by apply elem_of_nil in Hin|]. simpl. lia.
Qed.

Lemma search_by_own_title_witness :
  main.matches (Some (models.title examples.task_milk)) examples.task_milk = true /\
  exists r,
    main.list_tasks 1 10 (Some (models.title examples.task_milk)) examples.db2 =
      main.Return r /\
    1 <= main.total r.
Proof.
  apply (search_by_own_title 1 examples.task_milk 10 examples.db2).
  - reflexivity.
  - discriminate.
  - apply (bool_decide_unpack _). vm_compute. exact I.
  - lia.
Defined.

(** ** The response model *)

